(** * State in LangGraph: the notebook [00_understanding_state.ipynb]

    A shallow embedding of the notebook's code cells: the two state
    schemas [BasicState] and [ComplexState], the two state modification
    functions [increment_count] and [add_message], the two single-node
    graphs built by [create_simple_graph] and [create_complex_graph], and
    the run of [run_interactive_session].

    Python's [int] is unbounded, so counts are [Z].  A [str] is a
    [string].  A Python [list] is a [list]; [a + b] on lists builds a new
    list, so no aliasing is involved and the functions are pure. *)

From Stdlib Require Import ZArith String Ascii List DecimalString DecimalZ Lia.
From stdpp Require Import base option gmap strings list fin_maps.

Local Open Scope string_scope.
Local Open Scope list_scope.
Local Open Scope Z_scope.

(** ** The fragment of the Python runtime the notebook relies on *)

(** The exceptions that the modelled operations can raise. *)
Inductive exception : Type :=
  | IndexError            (* list index out of range *)
  | ValueError            (* an int too long to convert to str;
                             a graph that is not well formed *)
  | GraphRecursionError.  (* the run did not reach END within the limit *)

(** A computation either returns a value or raises. *)
Inductive result (A : Type) : Type :=
  | Ok (a : A)
  | Raise (e : exception).
Arguments Ok {A} a.
Arguments Raise {A} e.

#[global] Instance result_ret : MRet result := fun A a => Ok a.
#[global] Instance result_bind : MBind result := fun A B f r =>
  match r with
  | Ok a => f a
  | Raise e => Raise e
  end.

(** The decimal digits of an [int], with a leading minus sign for a
    negative number. *)
Definition decimal_of_int (n : Z) : string :=
  NilZero.string_of_int (Z.to_int n).

(** [sys.int_info.default_max_str_digits]: the most decimal digits that
    CPython converts between [int] and [str] (from 3.10.7 on; the
    notebook's kernel is 3.10.16, and the notebook leaves the limit at
    its default). *)
Definition int_max_str_digits : Z := 4300.

(** Whether [n] has at most [int_max_str_digits] decimal digits, the sign
    not counted. *)
Definition int_str_fits (n : Z) : bool :=
  Z.abs n <? 10 ^ int_max_str_digits.

(** [str(n)] and the [{n}] field of an f-string, for an [int]: the
    conversion raises [ValueError] when [n] has more digits than the
    limit allows. *)
Definition py_str_int (n : Z) : result string :=
  if int_str_fits n then Ok (decimal_of_int n) else Raise ValueError.

(** Truth value of a list: a list is false exactly when it is empty. *)
Definition py_bool {A : Type} (l : list A) : bool :=
  match l with
  | [] => false
  | _ :: _ => true
  end.

(** [l[i]]: a negative index counts from the end; an index outside the
    list raises [IndexError]. *)
Definition py_getitem {A : Type} (l : list A) (i : Z) : result A :=
  let n := Z.of_nat (length l) in
  let j := if i <? 0 then i + n else i in
  if (j <? 0) || (n <=? j) then Raise IndexError
  else match l !! Z.to_nat j with
       | Some x => Ok x
       | None => Raise IndexError
       end.

(** ** Messages *)

(** Modelled from the spec: the classes [HumanMessage] and [AIMessage] are
    imported from [langchain_core.messages], which is not part of the
    notebook; they are the two tagged text entries (human-authored,
    assistant-authored), each exposing a [content] field. *)
Inductive Message : Type :=
  | HumanMessage (content : string)
  | AIMessage (content : string).

Definition content (m : Message) : string :=
  match m with
  | HumanMessage c => c
  | AIMessage c => c
  end.

(** ** State schemas *)

(** [class BasicState(TypedDict): count: int].  A node of a graph returns
    a dict holding a subset of the keys; [Update.t] is such a dict, a key
    being absent when its field is [None]. *)
Module BasicState.
Record t : Type := mk { count : Z }.

Module Update.
Record t : Type := mk { count : option Z }.
End Update.
End BasicState.

(** [class ComplexState(TypedDict): count: int; messages: list[...]]. *)
Module ComplexState.
Record t : Type := mk { count : Z; messages : list Message }.

Module Update.
Record t : Type := mk { count : option Z; messages : option (list Message) }.
End Update.
End ComplexState.

(** ** State modification functions *)

Definition increment_count (state : BasicState.t) : BasicState.t :=
  BasicState.mk (BasicState.count state + 1).

(** The parameter [is_human: bool = True] is optional: a call that leaves
    it out passes [None], and the function then binds the default of its
    signature. *)
Definition add_message (state : ComplexState.t) (message : string)
    (is_human : option bool) : ComplexState.t :=
  let is_human := default true is_human in
  let new_message :=
    if is_human then HumanMessage message else AIMessage message in
  ComplexState.mk
    (ComplexState.count state)
    (ComplexState.messages state ++ [new_message]).

(** ** The graph engine *)

(** Modelled from the spec: how the engine merges the partial result of a
    step into the running record.  The engine ([langgraph.graph]) is not
    part of the notebook.  Each key present in the partial result
    replaces the value the record holds under that key; a key that is
    absent keeps its value. *)
Class Channels (S U : Type) : Type := write : U -> S -> S.

#[global] Instance BasicState_channels :
  Channels BasicState.t BasicState.Update.t := fun u s =>
  BasicState.mk (default (BasicState.count s) (BasicState.Update.count u)).

#[global] Instance ComplexState_channels :
  Channels ComplexState.t ComplexState.Update.t := fun u s =>
  ComplexState.mk
    (default (ComplexState.count s) (ComplexState.Update.count u))
    (default (ComplexState.messages s) (ComplexState.Update.messages u)).

(** Modelled from the spec: the terminal marker [END] imported from
    [langgraph.graph]; a reserved name that no step carries. *)
Definition END : string := "__end__".

Section Engine.
Context {S U : Type} `{!Channels S U}.

(** Modelled from the spec: the graph under construction, as the
    notebook's calls leave it: the registered steps by name, the
    designated entry step, and the edge leaving each step. *)
Record StateGraphT : Type := mkStateGraph {
  nodes : gmap string (S -> result U);
  entry_point : option string;
  edges : gmap string string
}.

(** Modelled from the spec: the constructor of a typed graph, which
    starts out with no step, no entry and no edge. *)
Definition StateGraph : StateGraphT :=
  mkStateGraph ∅ None ∅.

(** Modelled from the spec: the method that registers a named step. *)
Definition add_node (name : string) (action : S -> result U)
    (workflow : StateGraphT) : StateGraphT :=
  mkStateGraph (<[name := action]> (nodes workflow))
               (entry_point workflow) (edges workflow).

(** Modelled from the spec: the method that designates the entry step. *)
Definition set_entry_point (name : string)
    (workflow : StateGraphT) : StateGraphT :=
  mkStateGraph (nodes workflow) (Some name) (edges workflow).

(** Modelled from the spec: the method that connects a step to another
    step or to the terminal marker. *)
Definition add_edge (source target : string)
    (workflow : StateGraphT) : StateGraphT :=
  mkStateGraph (nodes workflow) (entry_point workflow)
               (<[source := target]> (edges workflow)).

(** Modelled from the spec: the invocable workflow that [compile]
    produces. *)
Record CompiledStateGraph : Type := mkCompiled {
  graph : StateGraphT;
  entry : string
}.

(** Modelled from the spec: the compile step; a graph without a
    designated entry step cannot be compiled. *)
Definition compile (workflow : StateGraphT) : result CompiledStateGraph :=
  match entry_point workflow with
  | Some name => Ok (mkCompiled workflow name)
  | None => Raise ValueError
  end.

(** Modelled from the spec: the walk from the entry step to the terminal
    marker.  At a step the engine runs it on the running record, merges
    its partial result, and follows the edge leaving the step.  A name
    that is neither registered nor the terminal marker, or a step with
    no edge leaving it, is an error. *)
Fixpoint run (workflow : StateGraphT) (limit : nat) (current : string)
    (state : S) : result S :=
  if decide (current = END) then Ok state
  else match limit with
       | O => Raise GraphRecursionError
       | Datatypes.S limit' =>
           match nodes workflow !! current, edges workflow !! current with
           | Some action, Some next =>
               update ← action state;
               run workflow limit' next (write update state)
           | _, _ => Raise ValueError
           end
       end.

(** Modelled from the spec: execute the graph against an initial record,
    returning the final record.  Edges are unconditional, so a walk that
    has not reached the terminal marker after as many steps as there are
    registered steps has come back to a step and would never end. *)
Definition invoke (compiled : CompiledStateGraph) (input : S) : result S :=
  run (graph compiled) (size (nodes (graph compiled))) (entry compiled) input.
End Engine.

Arguments StateGraphT : clear implicits.
Arguments CompiledStateGraph : clear implicits.
Arguments StateGraph S {U}.

(** ** Simple graph with state *)

Definition increment_node (state : BasicState.t)
    : result BasicState.Update.t :=
  Ok (BasicState.Update.mk (Some (BasicState.count state + 1))).

Definition create_simple_graph
    : result (CompiledStateGraph BasicState.t BasicState.Update.t) :=
  let workflow := StateGraph BasicState.t in
  let workflow := add_node "increment" increment_node workflow in
  let workflow := set_entry_point "increment" workflow in
  let workflow := add_edge "increment" END workflow in
  compile workflow.

(** ** Complex graph with state *)

Definition process_message (state : ComplexState.t)
    : result ComplexState.Update.t :=
  last_message ←
    (if py_bool (ComplexState.messages state)
     then m ← py_getitem (ComplexState.messages state) (-1); Ok (content m)
     else Ok "No messages yet");
  count_text ← py_str_int (ComplexState.count state + 1);
  let response :=
    "Received: " +:+ last_message +:+ ". Count is now " +:+ count_text in
  Ok (ComplexState.Update.mk
        (Some (ComplexState.count state + 1))
        (Some (ComplexState.messages state ++ [AIMessage response]))).

Definition create_complex_graph
    : result (CompiledStateGraph ComplexState.t ComplexState.Update.t) :=
  let workflow := StateGraph ComplexState.t in
  let workflow := add_node "process" process_message workflow in
  let workflow := set_entry_point "process" workflow in
  let workflow := add_edge "process" END workflow in
  compile workflow.

(** ** Execution *)

(** What [run_interactive_session] computes: the values it prints, in the
    order in which it prints them.  The [print] calls themselves are left
    out. *)
Record Session : Type := mkSession {
  basic_state : BasicState.t;
  complex_state : ComplexState.t;
  modified_basic : BasicState.t;
  modified_complex : ComplexState.t;
  simple_result : BasicState.t;
  complex_result : ComplexState.t
}.

Definition run_interactive_session : result Session :=
  let basic_state := BasicState.mk 0 in
  let complex_state := ComplexState.mk 0 [] in
  let modified_basic := increment_count basic_state in
  let modified_complex :=
    add_message complex_state "Hello, LangGraph!" None in
  simple_graph ← create_simple_graph;
  simple_result ← invoke simple_graph (BasicState.mk 0);
  complex_graph ← create_complex_graph;
  let initial_state :=
    ComplexState.mk 0 [HumanMessage "Hello, LangGraph!"] in
  complex_result ← invoke complex_graph initial_state;
  Ok (mkSession basic_state complex_state modified_basic modified_complex
                simple_result complex_result).

(** ** Reading a response text *)

(** The rest of [text] after its prefix [p], when [p] is a prefix of it. *)
Fixpoint strip_prefix (p text : string) : option string :=
  match p, text with
  | EmptyString, _ => Some text
  | String a p', String b text' =>
      if Ascii.eqb a b then strip_prefix p' text' else None
  | String _ _, EmptyString => None
  end.

(** [needle in text]. *)
Fixpoint contains (needle text : string) : bool :=
  match strip_prefix needle text with
  | Some _ => true
  | None =>
      match text with
      | EmptyString => false
      | String _ text' => contains needle text'
      end
  end.

(** What follows the last occurrence of [marker] in [text]. *)
Fixpoint after_last (marker text : string) : option string :=
  match text with
  | EmptyString => strip_prefix marker text
  | String _ text' =>
      match after_last marker text' with
      | Some rest => Some rest
      | None => strip_prefix marker text
      end
  end.

(** The count that a response text announces: the integer written in
    decimal after the last ["Count is now "], up to the end of the text. *)
Definition embedded_count (text : string) : option Z :=
  match after_last "Count is now " text with
  | Some digits => Z.of_int <$> NilZero.int_of_string digits
  | None => None
  end.

(** * Properties *)

(** ** The runtime fragment *)

Example decimal_of_int_examples :
  decimal_of_int 0 = "0" /\ decimal_of_int 1 = "1"
  /\ decimal_of_int 2048 = "2048" /\ decimal_of_int (-37) = "-37".
Proof. repeat split. Qed.

Example py_getitem_examples :
  py_getitem ["a"; "b"; "c"] (-1) = Ok "c"
  /\ py_getitem ["a"; "b"; "c"] 0 = Ok "a"
  /\ py_getitem ["a"; "b"; "c"] (-3) = Ok "a"
  /\ py_getitem ["a"; "b"; "c"] 3 = Raise IndexError
  /\ py_getitem ["a"; "b"; "c"] (-4) = Raise IndexError.
Proof. repeat split. Qed.

Example embedded_count_examples :
  embedded_count "Received: hi. Count is now 12" = Some 12
  /\ embedded_count "Received: Count is now 5. Count is now -3" = Some (-3)
  /\ embedded_count "Received: hi." = None.
Proof. repeat split. Qed.

Section Runtime.
Context {A : Type}.
Implicit Types (l : list A) (x : A).

Lemma py_bool_false l : py_bool l = false <-> l = [].
Proof. destruct l; simpl; split; congruence. Qed.

Lemma py_bool_true l : py_bool l = true <-> l <> [].
Proof. destruct l; simpl; split; congruence. Qed.

(** Index [-1] of a list that ends in [x] is [x]. *)
Lemma py_getitem_snoc l x : py_getitem (l ++ [x]) (-1) = Ok x.
Proof.
  unfold py_getitem. rewrite length_app. simpl length. cbv zeta.
  change (-1 <? 0) with true. cbv iota.
  destruct (Z.ltb_spec (-1 + Z.of_nat (length l + 1)) 0); [lia|].
  destruct (Z.leb_spec (Z.of_nat (length l + 1))
              (-1 + Z.of_nat (length l + 1))); [lia|].
  replace (Z.to_nat (-1 + Z.of_nat (length l + 1))) with (length l) by lia.
  simpl. rewrite lookup_app_r by lia. rewrite Nat.sub_diag. reflexivity.
Qed.

(** Every index of the empty list is out of range. *)
Lemma py_getitem_nil (i : Z) : py_getitem (@nil A) i = Raise IndexError.
Proof.
  unfold py_getitem. simpl length. cbv zeta.
  destruct (Z.ltb_spec i 0).
  - destruct (Z.ltb_spec (i + Z.of_nat 0) 0); [reflexivity | lia].
  - destruct (Z.leb_spec (Z.of_nat 0) i); [|lia].
    rewrite orb_true_r. reflexivity.
Qed.

(** A list that is not empty ends in some entry. *)
Lemma snoc_of_nonempty l : l <> [] -> exists l' x, l = l' ++ [x].
Proof.
  induction l as [|y l' _] using rev_ind; [congruence | eauto].
Qed.

Lemma py_getitem_last l :
  l <> [] -> exists x, py_getitem l (-1) = Ok x /\ last l = Some x.
Proof.
  intros (l' & x & ->)%snoc_of_nonempty. exists x.
  split; [apply py_getitem_snoc | apply last_snoc].
Qed.

Lemma py_getitem_last_raises l :
  py_getitem l (-1) = Raise IndexError <-> l = [].
Proof.
  split.
  - intros Hraise. destruct (decide (l = [])) as [|Hne]; [assumption|].
    destruct (py_getitem_last l Hne) as (x & Hx & _). congruence.
  - intros ->. apply py_getitem_nil.
Qed.
End Runtime.

(** ** Decimal rendering of a count *)

Lemma to_int_proper (n : Z) :
  Z.to_int n <> Decimal.Pos Decimal.Nil /\ Z.to_int n <> Decimal.Neg Decimal.Nil.
Proof.
  destruct n as [|p|p]; simpl; split; try discriminate;
    intros [= H]; exact (DecimalPos.Unsigned.to_uint_nonnil p H).
Qed.

(** Reading back the decimal rendering of [n] gives [n]. *)
Lemma decimal_of_int_read (n : Z) :
  Z.of_int <$> NilZero.int_of_string (decimal_of_int n) = Some n.
Proof.
  unfold decimal_of_int. destruct (to_int_proper n) as [Hp Hn].
  rewrite NilZero.isi by assumption. simpl.
  f_equal. apply DecimalZ.of_to.
Qed.

Lemma decimal_of_int_inj (n m : Z) : decimal_of_int n = decimal_of_int m -> n = m.
Proof.
  intros H. apply (f_equal (fun s => Z.of_int <$> NilZero.int_of_string s)) in H.
  rewrite !decimal_of_int_read in H. congruence.
Qed.

(** ** The limit on the conversion of an int to a str *)

Lemma int_max_str_bound_pos : 0 < 10 ^ int_max_str_digits.
Proof. apply Z.pow_pos_nonneg; unfold int_max_str_digits; lia. Qed.

Lemma int_str_fits_true (n : Z) :
  int_str_fits n = true <-> Z.abs n < 10 ^ int_max_str_digits.
Proof. unfold int_str_fits. apply Z.ltb_lt. Qed.

Lemma int_str_fits_false (n : Z) :
  int_str_fits n = false <-> 10 ^ int_max_str_digits <= Z.abs n.
Proof. unfold int_str_fits. apply Z.ltb_ge. Qed.

(** A number of at most [k] digits fits, for [k] up to the limit. *)
Lemma int_str_fits_digits (k n : Z) :
  0 <= k <= int_max_str_digits -> Z.abs n < 10 ^ k -> int_str_fits n = true.
Proof.
  intros Hk Hn. apply int_str_fits_true.
  eapply Z.lt_le_trans; [exact Hn|].
  apply Z.pow_le_mono_r; lia.
Qed.

Lemma int_str_fits_small (n : Z) : Z.abs n < 10 -> int_str_fits n = true.
Proof.
  intros Hn. apply (int_str_fits_digits 1); [|exact Hn].
  unfold int_max_str_digits. lia.
Qed.

Lemma py_str_int_fits (n : Z) :
  int_str_fits n = true -> py_str_int n = Ok (decimal_of_int n).
Proof. unfold py_str_int. intros ->. reflexivity. Qed.

Lemma py_str_int_long (n : Z) :
  int_str_fits n = false -> py_str_int n = Raise ValueError.
Proof. unfold py_str_int. intros ->. reflexivity. Qed.

(** The conversion at the limit: the largest and the smallest number of
    4300 digits are converted, the next ones are not. *)
Example py_str_int_at_the_limit :
  py_str_int (10 ^ 4300 - 1) = Ok (decimal_of_int (10 ^ 4300 - 1))
  /\ py_str_int (10 ^ 4300) = Raise ValueError
  /\ py_str_int (- (10 ^ 4300 - 1)) = Ok (decimal_of_int (- (10 ^ 4300 - 1)))
  /\ py_str_int (- 10 ^ 4300) = Raise ValueError.
Proof.
  change 4300 with int_max_str_digits.
  pose proof int_max_str_bound_pos as Hpos.
  split; [|split; [|split]].
  - apply py_str_int_fits, int_str_fits_true.
    revert Hpos. generalize (10 ^ int_max_str_digits). lia.
  - apply py_str_int_long, int_str_fits_false.
    revert Hpos. generalize (10 ^ int_max_str_digits). lia.
  - apply py_str_int_fits, int_str_fits_true.
    revert Hpos. generalize (10 ^ int_max_str_digits). lia.
  - apply py_str_int_long, int_str_fits_false.
    revert Hpos. generalize (10 ^ int_max_str_digits). lia.
Qed.

Example py_str_int_examples :
  py_str_int 0 = Ok "0" /\ py_str_int 1 = Ok "1"
  /\ py_str_int 2048 = Ok "2048" /\ py_str_int (-37) = Ok "-37".
Proof.
  split; [|split; [|split]];
    (rewrite py_str_int_fits;
     [reflexivity
     | apply (int_str_fits_digits 4);
       [unfold int_max_str_digits; lia | reflexivity]]).
Qed.

Lemma string_app_cons (x : ascii) (a b : string) :
  String x a +:+ b = String x (a +:+ b).
Proof. reflexivity. Qed.

Lemma string_app_assoc (a b c : string) : (a +:+ b) +:+ c = a +:+ b +:+ c.
Proof.
  induction a as [|x a IH]; [reflexivity|].
  rewrite !string_app_cons, IH. reflexivity.
Qed.

(** ** Reading a response text *)

Lemma strip_prefix_spec (p text rest : string) :
  strip_prefix p text = Some rest <-> text = p +:+ rest.
Proof.
  revert text. induction p as [|a p IH]; intros text.
  - change ("" +:+ rest) with rest. simpl. split; congruence.
  - rewrite string_app_cons. destruct text as [|b text]; simpl.
    + split; discriminate.
    + destruct (Ascii.eqb_spec a b) as [->|Hab].
      * rewrite IH. split; congruence.
      * split; [discriminate | congruence].
Qed.

Lemma contains_unfold (needle text : string) :
  contains needle text
  = match strip_prefix needle text with
    | Some _ => true
    | None =>
        match text with
        | EmptyString => false
        | String _ text' => contains needle text'
        end
    end.
Proof. destruct text; reflexivity. Qed.

(** [contains] decides whether [needle] occurs somewhere in [text]. *)
Lemma contains_spec (needle text : string) :
  contains needle text = true
  <-> exists before after : string, text = before +:+ needle +:+ after.
Proof.
  split.
  - induction text as [|a text IH]; simpl.
    + destruct (strip_prefix needle "") as [rest|] eqn:Hstrip; [|discriminate].
      intros _. exists "", rest.
        exact (proj1 (strip_prefix_spec _ _ _) Hstrip).
    + destruct (strip_prefix needle (String a text)) as [rest|] eqn:Hstrip.
      * intros _. exists "", rest.
        exact (proj1 (strip_prefix_spec _ _ _) Hstrip).
      * intros (before & after & ->)%IH.
        exists (String a before), after. reflexivity.
  - intros (before & after & ->).
    induction before as [|a before IH].
    + change ("" +:+ needle +:+ after) with (needle +:+ after).
      rewrite contains_unfold.
      rewrite (proj2 (strip_prefix_spec needle _ after) eq_refl).
      reflexivity.
    + rewrite string_app_cons, contains_unfold, IH.
      destruct (strip_prefix needle _); reflexivity.
Qed.

(** No digit string holds the marker. *)
Lemma after_last_uint (d : Decimal.uint) :
  after_last "Count is now " (NilEmpty.string_of_uint d) = None.
Proof. induction d; simpl; rewrite ?IHd; reflexivity. Qed.

Lemma after_last_decimal_of_int (n : Z) :
  after_last "Count is now " (decimal_of_int n) = None.
Proof.
  unfold decimal_of_int.
  destruct (Z.to_int n) as [d|d]; destruct d; simpl;
    rewrite ?after_last_uint; reflexivity.
Qed.

Lemma after_last_app (marker p text rest : string) :
  after_last marker text = Some rest ->
  after_last marker (p +:+ text) = Some rest.
Proof.
  intros H. induction p as [|a p IH]; simpl; [assumption|].
  rewrite IH. reflexivity.
Qed.

Lemma embedded_count_announced (head : string) (n : Z) :
  embedded_count (head +:+ "Count is now " +:+ decimal_of_int n) = Some n.
Proof.
  unfold embedded_count.
  rewrite (after_last_app _ head _ (decimal_of_int n)).
  - apply decimal_of_int_read.
  - generalize (after_last_decimal_of_int n).
    generalize (decimal_of_int n). intros digits Hdigits.
    cbv [String.append]. cbn [after_last]. rewrite Hdigits. reflexivity.
Qed.

(** A text announces one count only. *)
Lemma announced_count_unique (head1 head2 : string) (n1 n2 : Z) :
  head1 +:+ "Count is now " +:+ decimal_of_int n1
  = head2 +:+ "Count is now " +:+ decimal_of_int n2 ->
  n1 = n2.
Proof.
  intros Heq. apply (f_equal embedded_count) in Heq.
  rewrite !embedded_count_announced in Heq. congruence.
Qed.

(** ** The graph engine on a single-step graph *)

Section SingleStep.
Context {S U : Type} `{!Channels S U}.

(** A graph with one step, which is its entry and leads to [END], runs
    that step once and merges its partial result into the input. *)
Lemma invoke_single_step (name : string) (action : S -> result U)
    (input : S) :
  name <> END ->
  (compiled ← compile (add_edge name END
                         (set_entry_point name
                            (add_node name action (StateGraph S))));
   invoke compiled input)
  = (update ← action input; Ok (write update input)).
Proof.
  intros Hname. unfold compile, invoke. simpl.
  rewrite map_size_insert_None by apply lookup_empty.
  rewrite map_size_empty. simpl.
  destruct (decide (name = END)) as [|_]; [contradiction|].
  rewrite !lookup_insert_eq.
  destruct (action input) as [update|e]; simpl; [|reflexivity].
  destruct (decide (END = END)); [reflexivity | contradiction].
Qed.
End SingleStep.

Lemma simple_graph_invoke (input : BasicState.t) :
  (compiled ← create_simple_graph; invoke compiled input)
  = Ok (BasicState.mk (BasicState.count input + 1)).
Proof.
  unfold create_simple_graph.
  rewrite invoke_single_step by discriminate. reflexivity.
Qed.

(** What [process_message] returns, spelled out for both branches of the
    emptiness check and both outcomes of the conversion of the count. *)
Lemma process_message_eq (state : ComplexState.t) :
  process_message state
  = if int_str_fits (ComplexState.count state + 1)
    then Ok (ComplexState.Update.mk
               (Some (ComplexState.count state + 1))
               (Some (ComplexState.messages state ++
                      [AIMessage
                         ("Received: "
                          +:+ from_option content "No messages yet"
                                (last (ComplexState.messages state))
                          +:+ ". Count is now "
                          +:+ decimal_of_int (ComplexState.count state + 1))])))
    else Raise ValueError.
Proof.
  unfold process_message, py_str_int.
  destruct (ComplexState.messages state) as [|m l] eqn:Hmsgs using rev_ind.
  - destruct (int_str_fits _); reflexivity.
  - clear IHl. rewrite py_getitem_snoc, last_snoc.
    destruct l; destruct (int_str_fits _); reflexivity.
Qed.

Lemma process_message_fits (state : ComplexState.t) :
  int_str_fits (ComplexState.count state + 1) = true ->
  process_message state
  = Ok (ComplexState.Update.mk
          (Some (ComplexState.count state + 1))
          (Some (ComplexState.messages state ++
                 [AIMessage
                    ("Received: "
                     +:+ from_option content "No messages yet"
                           (last (ComplexState.messages state))
                     +:+ ". Count is now "
                     +:+ decimal_of_int (ComplexState.count state + 1))]))).
Proof. intros Hfits. rewrite process_message_eq, Hfits. reflexivity. Qed.

Lemma process_message_long (state : ComplexState.t) :
  int_str_fits (ComplexState.count state + 1) = false ->
  process_message state = Raise ValueError.
Proof. intros Hlong. rewrite process_message_eq, Hlong. reflexivity. Qed.

(** The only exception [process_message] raises is [ValueError]. *)
Lemma process_message_raises (state : ComplexState.t) (e : exception) :
  process_message state = Raise e ->
  e = ValueError /\ int_str_fits (ComplexState.count state + 1) = false.
Proof.
  rewrite process_message_eq.
  destruct (int_str_fits _); [discriminate|]. intros [= <-]. auto.
Qed.

Lemma complex_graph_invoke (input : ComplexState.t) :
  (compiled ← create_complex_graph; invoke compiled input)
  = (update ← process_message input; Ok (write update input)).
Proof.
  unfold create_complex_graph.
  rewrite invoke_single_step by discriminate. reflexivity.
Qed.

Lemma complex_graph_invoke_fits (input : ComplexState.t) :
  int_str_fits (ComplexState.count input + 1) = true ->
  (compiled ← create_complex_graph; invoke compiled input)
  = Ok (ComplexState.mk
          (ComplexState.count input + 1)
          (ComplexState.messages input ++
           [AIMessage
              ("Received: "
               +:+ from_option content "No messages yet"
                     (last (ComplexState.messages input))
               +:+ ". Count is now "
               +:+ decimal_of_int (ComplexState.count input + 1))])).
Proof.
  intros Hfits. rewrite complex_graph_invoke, process_message_fits by exact Hfits.
  reflexivity.
Qed.

Lemma complex_graph_invoke_long (input : ComplexState.t) :
  int_str_fits (ComplexState.count input + 1) = false ->
  (compiled ← create_complex_graph; invoke compiled input)
  = Raise ValueError.
Proof.
  intros Hlong. rewrite complex_graph_invoke, process_message_long by exact Hlong.
  reflexivity.
Qed.

(** ** State modification functions *)

Lemma increment_count_iter (n : nat) (r : BasicState.t) :
  BasicState.count (Nat.iter n increment_count r)
  = BasicState.count r + Z.of_nat n.
Proof.
  induction n as [|n IH].
  - simpl. lia.
  - rewrite Nat2Z.inj_succ. simpl. rewrite IH. lia.
Qed.

(** C2: for every basic record [r], [increment_count r] is a record whose
    count is [r.count + 1].  The function is total and raises nothing: it
    returns a plain record on every input.  [count] is the only field, so
    the first equation, which gives the whole returned record, shows that
    nothing else is altered. *)
Theorem increment_count_spec (r : BasicState.t) :
  increment_count r = BasicState.mk (BasicState.count r + 1)
  /\ BasicState.count (increment_count r) = BasicState.count r + 1.
Proof. split; reflexivity. Qed.

(** C6: [increment_count] is not idempotent.  Applying it twice gives
    [r.count + 2], applying it once gives [r.count + 1], and the two
    records differ; every further call adds exactly one, so after [n]
    calls the count is [r.count + n], and each call strictly increases
    the count. *)
Theorem increment_count_not_idempotent (r : BasicState.t) :
  BasicState.count (increment_count (increment_count r))
    = BasicState.count r + 2
  /\ BasicState.count (increment_count r) = BasicState.count r + 1
  /\ increment_count (increment_count r) <> increment_count r
  /\ (forall n : nat,
        BasicState.count (Nat.iter n increment_count r)
          = BasicState.count r + Z.of_nat n)
  /\ (forall n : nat,
        BasicState.count (Nat.iter n increment_count r)
          < BasicState.count (Nat.iter (Datatypes.S n) increment_count r)).
Proof.
  repeat split.
  - simpl. lia.
  - intros [= H]. lia.
  - intros n. apply increment_count_iter.
  - intros n. rewrite !increment_count_iter. lia.
Qed.

(** C1: for every complex record [r] and text [t], [add_message r t True]
    keeps the count, its messages are one longer than those of [r], the
    last one is the human message with content [t], and the entries
    before it are the messages of [r], unchanged and in order.  With
    [False] the same holds, the new entry being the assistant message. *)
Theorem add_message_spec (r : ComplexState.t) (t : string) :
  (ComplexState.count (add_message r t (Some true)) = ComplexState.count r
   /\ length (ComplexState.messages (add_message r t (Some true)))
      = (length (ComplexState.messages r) + 1)%nat
   /\ last (ComplexState.messages (add_message r t (Some true)))
      = Some (HumanMessage t)
   /\ take (length (ComplexState.messages r))
           (ComplexState.messages (add_message r t (Some true)))
      = ComplexState.messages r)
  /\
  (ComplexState.count (add_message r t (Some false)) = ComplexState.count r
   /\ length (ComplexState.messages (add_message r t (Some false)))
      = (length (ComplexState.messages r) + 1)%nat
   /\ last (ComplexState.messages (add_message r t (Some false)))
      = Some (AIMessage t)
   /\ take (length (ComplexState.messages r))
           (ComplexState.messages (add_message r t (Some false)))
      = ComplexState.messages r).
Proof.
  unfold add_message; simpl.
  rewrite !length_app, !last_snoc, !take_app_length. simpl.
  repeat split.
Qed.

(** C10: a call of [add_message] that leaves [is_human] out behaves as the
    call with [True]: the appended entry is the human message. *)
Theorem add_message_default (r : ComplexState.t) (t : string) :
  add_message r t None = add_message r t (Some true)
  /\ ComplexState.messages (add_message r t None)
     = ComplexState.messages r ++ [HumanMessage t].
Proof. split; reflexivity. Qed.

(** ** The complex graph's step *)

(** C7: the message history only grows at its end.  For every complex
    record [r], the messages that [add_message] returns (with either tag,
    or with the tag left out) are the messages of [r], in order,
    followed by exactly one entry, so every entry of [r] is still at its
    index.  The same holds of the messages in the partial update of
    [process_message] whenever it returns one; it returns one unless
    [r.count + 1] has more than 4300 digits, and then it raises
    [ValueError] and produces no messages at all. *)
Theorem messages_append_only (r : ComplexState.t) :
  (forall (t : string) (is_human : option bool), exists entry : Message,
      ComplexState.messages (add_message r t is_human)
        = ComplexState.messages r ++ [entry]
      /\ forall (i : nat) (m : Message),
           ComplexState.messages r !! i = Some m ->
           ComplexState.messages (add_message r t is_human) !! i = Some m)
  /\ (if int_str_fits (ComplexState.count r + 1)
      then exists (update : ComplexState.Update.t) (entry : Message)
                  (new_messages : list Message),
             process_message r = Ok update
             /\ ComplexState.Update.messages update = Some new_messages
             /\ new_messages = ComplexState.messages r ++ [entry]
             /\ forall (i : nat) (m : Message),
                  ComplexState.messages r !! i = Some m ->
                  new_messages !! i = Some m
      else process_message r = Raise ValueError)
  /\ (forall update : ComplexState.Update.t,
        process_message r = Ok update ->
        exists entry : Message,
          ComplexState.Update.messages update
          = Some (ComplexState.messages r ++ [entry])).
Proof.
  split; [|split].
  - intros t is_human. unfold add_message. simpl.
    eexists. split; [reflexivity|].
    intros i m Hi. apply lookup_app_l_Some. exact Hi.
  - rewrite process_message_eq.
    destruct (int_str_fits _); [|reflexivity].
    eexists _, _, _. repeat split.
    intros i m Hi. apply lookup_app_l_Some. exact Hi.
  - intros update. rewrite process_message_eq.
    destruct (int_str_fits _); [|discriminate].
    intros [= <-]. eexists. reflexivity.
Qed.

(** Every reply ends in the announcement of the new count. *)
Lemma process_message_reply_announces (r : ComplexState.t) :
  int_str_fits (ComplexState.count r + 1) = true ->
  exists reply head : string,
    process_message r
    = Ok (ComplexState.Update.mk
            (Some (ComplexState.count r + 1))
            (Some (ComplexState.messages r ++ [AIMessage reply])))
    /\ reply
       = head +:+ "Count is now "
         +:+ decimal_of_int (ComplexState.count r + 1).
Proof.
  intros Hfits. rewrite process_message_fits by exact Hfits.
  eexists _, ("Received: "
              +:+ from_option content "No messages yet"
                    (last (ComplexState.messages r))
              +:+ ". ").
  split; [reflexivity|].
  rewrite !string_app_assoc. reflexivity.
Qed.


(** C9, the claim at a record it fails on: with the count [10^4300 - 1]
    and no message, the conversion of the new count, which has 4301
    digits, raises [ValueError], so the step does not return. *)
Lemma process_message_raises_on_long_count :
  process_message (ComplexState.mk (10 ^ 4300 - 1) []) = Raise ValueError.
Proof.
  apply process_message_long, int_str_fits_false.
  change 4300 with int_max_str_digits. simpl ComplexState.count.
  pose proof int_max_str_bound_pos as Hpos.
  revert Hpos. generalize (10 ^ int_max_str_digits). lia.
Qed.

(** C9, as amended: [process_message] never raises [IndexError].  The
    access to the last message raises exactly when the list is empty,
    which is exactly when the emptiness check is false; so whenever the
    check lets the access run it succeeds, and on an empty list the step
    takes the placeholder text instead.  The step returns on every record
    whose [count + 1] has at most 4300 digits, also one with an empty
    history; on the others the conversion of the count raises
    [ValueError]. *)
Theorem process_message_guarded (state : ComplexState.t) :
  (if int_str_fits (ComplexState.count state + 1)
   then exists update : ComplexState.Update.t,
          process_message state = Ok update
   else process_message state = Raise ValueError)
  /\ process_message state <> Raise IndexError
  /\ (py_bool (ComplexState.messages state) = true ->
      exists m : Message,
        py_getitem (ComplexState.messages state) (-1) = Ok m)
  /\ (py_getitem (ComplexState.messages state) (-1) = Raise IndexError
      <-> py_bool (ComplexState.messages state) = false)
  /\ (py_bool (ComplexState.messages state) = false ->
      process_message state
      = if int_str_fits (ComplexState.count state + 1)
        then Ok (ComplexState.Update.mk
                   (Some (ComplexState.count state + 1))
                   (Some [AIMessage
                            ("Received: No messages yet. Count is now "
                             +:+ decimal_of_int
                                   (ComplexState.count state + 1))]))
        else Raise ValueError).
Proof.
  split; [|split; [|split; [|split]]].
  - rewrite process_message_eq.
    destruct (int_str_fits _); [eexists|]; reflexivity.
  - intros Hraise. apply process_message_raises in Hraise as [Hraise _].
    discriminate Hraise.
  - intros Hguard%py_bool_true.
    destruct (py_getitem_last _ Hguard) as (m & Hm & _). eauto.
  - split.
    + intros Hraise%py_getitem_last_raises. apply py_bool_false, Hraise.
    + intros Hguard%py_bool_false. apply py_getitem_last_raises, Hguard.
  - intros Hguard%py_bool_false. rewrite process_message_eq, Hguard.
    reflexivity.
Qed.

(** ** Running the graphs *)

(** C4: the compiled simple graph, invoked on the record with count 0,
    returns the record with count 1; its only step returns the partial
    update that sets [count] to [record.count + 1]. *)
Theorem simple_graph_example :
  (compiled ← create_simple_graph; invoke compiled (BasicState.mk 0))
  = Ok (BasicState.mk 1)
  /\ forall record : BasicState.t,
       increment_node record
       = Ok (BasicState.Update.mk (Some (BasicState.count record + 1))).
Proof.
  split.
  - rewrite simple_graph_invoke. reflexivity.
  - intros record. reflexivity.
Qed.

(** C3: the compiled complex graph, invoked on count 0 with the one human
    message "Hello, LangGraph!", returns count 1 and the two messages of
    the notebook's run.  Its step, whenever it returns, returns the
    partial update that sets [count] to [state.count + 1] and [messages]
    to the state's messages with one assistant entry appended; it
    returns unless [state.count + 1] has more than 4300 digits, and then
    it raises [ValueError]. *)
Theorem complex_graph_example :
  (compiled ← create_complex_graph;
   invoke compiled (ComplexState.mk 0 [HumanMessage "Hello, LangGraph!"]))
  = Ok (ComplexState.mk 1
          [HumanMessage "Hello, LangGraph!";
           AIMessage "Received: Hello, LangGraph!. Count is now 1"])
  /\ (forall state : ComplexState.t,
        if int_str_fits (ComplexState.count state + 1)
        then exists response : string,
               process_message state
               = Ok (ComplexState.Update.mk
                       (Some (ComplexState.count state + 1))
                       (Some (ComplexState.messages state
                              ++ [AIMessage response])))
        else process_message state = Raise ValueError)
  /\ (forall (state : ComplexState.t) (update : ComplexState.Update.t),
        process_message state = Ok update ->
        exists response : string,
          update
          = ComplexState.Update.mk
              (Some (ComplexState.count state + 1))
              (Some (ComplexState.messages state ++ [AIMessage response]))).
Proof.
  split; [|split].
  - rewrite complex_graph_invoke_fits
      by (apply int_str_fits_small; reflexivity).
    reflexivity.
  - intros state. rewrite process_message_eq.
    destruct (int_str_fits _); [eexists|]; reflexivity.
  - intros state update. rewrite process_message_eq.
    destruct (int_str_fits _); [|discriminate].
    intros [= <-]. eexists. reflexivity.
Qed.

(** C5: the compiled complex graph, invoked on count 0 with no message,
    returns count 1 and a single assistant entry, whose text contains
    the placeholder "No messages yet". *)
Theorem complex_graph_empty_history :
  exists response : string,
    (compiled ← create_complex_graph;
     invoke compiled (ComplexState.mk 0 []))
    = Ok (ComplexState.mk 1 [AIMessage response])
    /\ contains "No messages yet" response = true
    /\ response = "Received: No messages yet. Count is now 1".
Proof.
  eexists. rewrite complex_graph_invoke_fits by (apply int_str_fits_small; reflexivity).
  split; [reflexivity|]. split; reflexivity.
Qed.

(** X9: [run_interactive_session] completes without raising, and the six
    values it prints are those of the notebook's recorded output cell
    (the two graphs run on the modelled engine). *)
Example run_interactive_session_output :
  run_interactive_session
  = Ok (mkSession
          (BasicState.mk 0)
          (ComplexState.mk 0 [])
          (BasicState.mk 1)
          (ComplexState.mk 0 [HumanMessage "Hello, LangGraph!"])
          (BasicState.mk 1)
          (ComplexState.mk 1
             [HumanMessage "Hello, LangGraph!";
              AIMessage "Received: Hello, LangGraph!. Count is now 1"])).
Proof.
  unfold run_interactive_session.
  pose proof (simple_graph_invoke (BasicState.mk 0)) as Hsimple.
  pose proof (complex_graph_invoke_fits
                (ComplexState.mk 0 [HumanMessage "Hello, LangGraph!"])
                (int_str_fits_small (0 + 1) eq_refl)) as Hcomplex.
  destruct create_simple_graph as [simple_graph|e]; [|discriminate Hsimple].
  destruct create_complex_graph as [complex_graph|e]; [|discriminate Hcomplex].
  unfold mbind, result_bind in *. cbv beta iota zeta in *.
  rewrite Hsimple, Hcomplex. reflexivity.
Qed.

(** * Further properties of the notebook's functions *)

(** ** Strings *)

Lemma string_length_app (a b : string) :
  String.length (a +:+ b) = (String.length a + String.length b)%nat.
Proof.
  induction a as [|x a IH]; [reflexivity|].
  rewrite string_app_cons. simpl. rewrite IH. reflexivity.
Qed.

(** A common ending can be cancelled. *)
Lemma string_app_inj_r (a b tail : string) :
  a +:+ tail = b +:+ tail -> a = b.
Proof.
  revert b. induction a as [|x a IH]; intros [|y b] Heq.
  - reflexivity.
  - apply (f_equal String.length) in Heq.
    rewrite !string_length_app in Heq. simpl in Heq. lia.
  - apply (f_equal String.length) in Heq.
    rewrite !string_length_app in Heq. simpl in Heq. lia.
  - rewrite !string_app_cons in Heq. injection Heq as -> Heq.
    f_equal. apply IH, Heq.
Qed.

(** The reply text determines the content it quotes, the count being
    known. *)
Lemma reply_inj (content1 content2 : string) (n : Z) :
  "Received: " +:+ content1 +:+ ". Count is now " +:+ decimal_of_int n
  = "Received: " +:+ content2 +:+ ". Count is now " +:+ decimal_of_int n ->
  content1 = content2.
Proof.
  intros Heq. apply (inj (String.append "Received: ")) in Heq.
  rewrite <- !string_app_assoc in Heq.
  apply string_app_inj_r in Heq.
  apply (string_app_inj_r _ _ ". Count is now "), Heq.
Qed.

(** [process_message] on a history that ends in [m]. *)
Lemma process_message_snoc (c : Z) (l : list Message) (m : Message) :
  process_message (ComplexState.mk c (l ++ [m]))
  = if int_str_fits (c + 1)
    then Ok (ComplexState.Update.mk
               (Some (c + 1))
               (Some (l ++ [m; AIMessage
                                 ("Received: " +:+ content m
                                  +:+ ". Count is now "
                                  +:+ decimal_of_int (c + 1))])))
    else Raise ValueError.
Proof.
  rewrite process_message_eq. simpl ComplexState.count.
  destruct (int_str_fits _); [|reflexivity].
  simpl. rewrite last_snoc. simpl.
  rewrite <- app_assoc. reflexivity.
Qed.

(** ** How the functions compose *)

(** X1: the step run on a record to which [add_message] has just added
    the text [t] never takes the placeholder branch.  Unless
    [r.count + 1] has more than 4300 digits, in which case it raises
    [ValueError], its reply quotes [t], whichever tag the message got,
    the count goes up by one, and the new history is the old one followed
    by the added message and the reply. *)
Theorem process_message_after_add_message (r : ComplexState.t)
    (t : string) (is_human : option bool) :
  process_message (add_message r t is_human)
  = if int_str_fits (ComplexState.count r + 1)
    then Ok (ComplexState.Update.mk
               (Some (ComplexState.count r + 1))
               (Some (ComplexState.messages r ++
                      [if default true is_human
                       then HumanMessage t else AIMessage t;
                       AIMessage
                         ("Received: " +:+ t +:+ ". Count is now "
                          +:+ decimal_of_int (ComplexState.count r + 1))])))
    else Raise ValueError.
Proof.
  unfold add_message. cbv zeta.
  rewrite process_message_snoc.
  destruct (int_str_fits _); [|reflexivity].
  destruct (default true is_human); reflexivity.
Qed.

(** X2: on a history that is not empty, the reply of [process_message]
    depends on the history only through the content of its last message:
    the earlier messages and the tag of the last one play no role, and
    two records with the same count get the same reply exactly when
    their last messages have the same content.  This is so whenever the
    step returns; when [c + 1] has more than 4300 digits both runs raise
    [ValueError]. *)
Theorem process_message_reply_last_content (c : Z) (l1 l2 : list Message)
    (m1 m2 : Message) :
  if int_str_fits (c + 1)
  then exists reply1 reply2 : string,
         process_message (ComplexState.mk c (l1 ++ [m1]))
         = Ok (ComplexState.Update.mk (Some (c + 1))
                 (Some (l1 ++ [m1; AIMessage reply1])))
         /\ process_message (ComplexState.mk c (l2 ++ [m2]))
            = Ok (ComplexState.Update.mk (Some (c + 1))
                    (Some (l2 ++ [m2; AIMessage reply2])))
         /\ reply1
            = "Received: " +:+ content m1 +:+ ". Count is now "
              +:+ decimal_of_int (c + 1)
         /\ (reply1 = reply2 <-> content m1 = content m2)
  else process_message (ComplexState.mk c (l1 ++ [m1])) = Raise ValueError
       /\ process_message (ComplexState.mk c (l2 ++ [m2]))
          = Raise ValueError.
Proof.
  rewrite !process_message_snoc.
  destruct (int_str_fits _); [|split; reflexivity].
  eexists _, _.
  split; [reflexivity|]. split; [reflexivity|]. split; [reflexivity|].
  split.
  - apply reply_inj.
  - intros ->. reflexivity.
Qed.

(** X3: the reply on an empty history cannot be told from a reply to a
    real message: it is the reply given to a history whose last message
    has the content "No messages yet", and to no other.  This is so
    whenever the step returns; when [c + 1] has more than 4300 digits
    both runs raise [ValueError]. *)
Theorem process_message_placeholder_reply (c : Z) (l : list Message)
    (m : Message) :
  if int_str_fits (c + 1)
  then exists reply0 reply1 : string,
         process_message (ComplexState.mk c [])
         = Ok (ComplexState.Update.mk (Some (c + 1))
                 (Some [AIMessage reply0]))
         /\ process_message (ComplexState.mk c (l ++ [m]))
            = Ok (ComplexState.Update.mk (Some (c + 1))
                    (Some (l ++ [m; AIMessage reply1])))
         /\ (reply0 = reply1 <-> content m = "No messages yet")
  else process_message (ComplexState.mk c []) = Raise ValueError
       /\ process_message (ComplexState.mk c (l ++ [m])) = Raise ValueError.
Proof.
  rewrite process_message_snoc, process_message_eq. simpl ComplexState.count.
  destruct (int_str_fits _); [|split; reflexivity].
  eexists _, _.
  split; [reflexivity|]. split; [reflexivity|].
  split.
  - intros Heq. symmetry. apply (reply_inj _ _ (c + 1)). exact Heq.
  - intros ->. reflexivity.
Qed.

(** X5: calling [add_message] once per entry of a list of texts, each
    with its own flag or with the flag left out, keeps the count and
    appends one message per text, in the order of the calls, human
    unless the flag is [False]. *)
Theorem add_message_fold (entries : list (string * option bool))
    (r : ComplexState.t) :
  fold_left (fun state e => add_message state e.1 e.2) entries r
  = ComplexState.mk
      (ComplexState.count r)
      (ComplexState.messages r ++
       map (fun e => if default true e.2
                     then HumanMessage e.1 else AIMessage e.1) entries).
Proof.
  revert r. induction entries as [|e entries IH]; intros r.
  - simpl. rewrite app_nil_r. destruct r; reflexivity.
  - simpl. rewrite IH. unfold add_message. simpl.
    rewrite <- app_assoc. reflexivity.
Qed.

(** X6: running the step again on the record its first run produced
    quotes the first reply in the second one; the counts are [c + 1] and
    [c + 2], and the count announced by the second reply is the second
    one, although the text of the first announcement is inside it.  A
    run raises [ValueError] instead when the count it has to write has
    more than 4300 digits. *)
Theorem process_message_twice (r : ComplexState.t) :
  if int_str_fits (ComplexState.count r + 1)
  then exists reply1 : string,
         process_message r
         = Ok (ComplexState.Update.mk
                 (Some (ComplexState.count r + 1))
                 (Some (ComplexState.messages r ++ [AIMessage reply1])))
         /\ embedded_count reply1 = Some (ComplexState.count r + 1)
         /\ if int_str_fits (ComplexState.count r + 2)
            then exists reply2 : string,
                   process_message
                     (ComplexState.mk (ComplexState.count r + 1)
                        (ComplexState.messages r ++ [AIMessage reply1]))
                   = Ok (ComplexState.Update.mk
                           (Some (ComplexState.count r + 2))
                           (Some (ComplexState.messages r ++
                                  [AIMessage reply1; AIMessage reply2])))
                   /\ reply2
                      = "Received: " +:+ reply1 +:+ ". Count is now "
                        +:+ decimal_of_int (ComplexState.count r + 2)
                   /\ contains reply1 reply2 = true
                   /\ embedded_count reply2
                      = Some (ComplexState.count r + 2)
            else process_message
                   (ComplexState.mk (ComplexState.count r + 1)
                      (ComplexState.messages r ++ [AIMessage reply1]))
                 = Raise ValueError
  else process_message r = Raise ValueError.
Proof.
  destruct (int_str_fits (ComplexState.count r + 1)) eqn:Hfits1;
    [|apply process_message_long, Hfits1].
  destruct (process_message_reply_announces r Hfits1)
    as (reply1 & head & Hrun & Hreply1).
  exists reply1. split; [exact Hrun|].
  split; [rewrite Hreply1; apply embedded_count_announced|].
  rewrite process_message_snoc.
  replace (ComplexState.count r + 1 + 1) with (ComplexState.count r + 2) by lia.
  destruct (int_str_fits (ComplexState.count r + 2)); [|reflexivity].
  eexists. split; [reflexivity|]. split; [reflexivity|]. split.
  - apply contains_spec. eexists _, _. reflexivity.
  - simpl content.
    replace ("Received: " +:+ reply1 +:+ ". Count is now "
             +:+ decimal_of_int (ComplexState.count r + 2))
      with (("Received: " +:+ reply1 +:+ ". ") +:+ "Count is now "
            +:+ decimal_of_int (ComplexState.count r + 2))
      by (rewrite !string_app_assoc; reflexivity).
    apply embedded_count_announced.
Qed.

(** ** What the state modification functions keep *)

(** X7: [increment_count] loses nothing: two records have the same
    result exactly when they are equal, the order of two counts is the
    order of the incremented counts, and the argument is recovered by
    taking one off the result. *)
Theorem increment_count_injective (r1 r2 : BasicState.t) :
  (increment_count r1 = increment_count r2 <-> r1 = r2)
  /\ (BasicState.count (increment_count r1)
        <= BasicState.count (increment_count r2)
      <-> BasicState.count r1 <= BasicState.count r2)
  /\ BasicState.mk (BasicState.count (increment_count r1) - 1) = r1.
Proof.
  destruct r1 as [c1], r2 as [c2]. unfold increment_count. simpl.
  repeat split.
  - intros [= H]. f_equal. lia.
  - intros [= ->]. reflexivity.
  - lia.
  - lia.
  - f_equal. lia.
Qed.

(** X8: [add_message] loses nothing either: two calls return the same
    record exactly when they were given the same record, the same text
    and flags that select the same tag (a flag left out counting as
    [True]); and the record returned is never the one passed in, and
    its history is never empty. *)
Theorem add_message_injective (r1 r2 : ComplexState.t) (t1 t2 : string)
    (b1 b2 : option bool) :
  (add_message r1 t1 b1 = add_message r2 t2 b2
   <-> r1 = r2 /\ t1 = t2 /\ default true b1 = default true b2)
  /\ add_message r1 t1 b1 <> r1
  /\ ComplexState.messages (add_message r1 t1 b1) <> [].
Proof.
  destruct r1 as [c1 l1], r2 as [c2 l2]. unfold add_message. simpl.
  split; [split|split].
  - intros [= -> Happ]. apply app_inj_tail in Happ as [-> Hm].
    destruct (default true b1), (default true b2);
      try discriminate Hm; injection Hm as ->; auto.
  - intros ([= -> ->] & -> & ->). reflexivity.
  - intros [= Happ]. apply (f_equal length) in Happ.
    rewrite length_app in Happ. simpl in Happ. lia.
  - intros Happ. apply (f_equal length) in Happ.
    rewrite length_app in Happ. simpl in Happ. lia.
Qed.

(** ** The two graphs on every input *)

(** X10: on the modelled engine, the compiled simple graph returns on
    every record, and what it returns is the record that
    [increment_count] computes. *)
Theorem simple_graph_is_increment_count (input : BasicState.t) :
  (compiled ← create_simple_graph; invoke compiled input)
  = Ok (increment_count input).
Proof. rewrite simple_graph_invoke. reflexivity. Qed.

(** X11: on the modelled engine, the compiled complex graph returns on
    every record whose [count + 1] has at most 4300 digits, also one
    with an empty history or a negative count: the count goes up by one
    and the history gains exactly one assistant entry, whose text
    announces the count that is returned.  On the other records the run
    raises the [ValueError] of its step. *)
Theorem complex_graph_on_every_record (input : ComplexState.t) :
  if int_str_fits (ComplexState.count input + 1)
  then exists reply : string,
         (compiled ← create_complex_graph; invoke compiled input)
         = Ok (ComplexState.mk
                 (ComplexState.count input + 1)
                 (ComplexState.messages input ++ [AIMessage reply]))
         /\ embedded_count reply = Some (ComplexState.count input + 1)
  else (compiled ← create_complex_graph; invoke compiled input)
       = Raise ValueError.
Proof.
  destruct (int_str_fits (ComplexState.count input + 1)) eqn:Hfits;
    [|apply complex_graph_invoke_long, Hfits].
  destruct (process_message_reply_announces input Hfits)
    as (reply & head & Hrun & ->).
  eexists. rewrite complex_graph_invoke, Hrun.
  split; [reflexivity|]. apply embedded_count_announced.
Qed.
